(** * Design Patterns Examples: Factory Method, Abstract Factory, Builder

    A shallow embedding of [Design Patterns Examples.cpp].  Objects live in
    one store indexed by addresses; a pointer is an address; methods are
    computations in a state monad over the store and the standard output,
    failing where the C++ program would have undefined behaviour. *)

From stdpp Require Import base option gmap list strings.

(** ** Objects and the store *)

Abbreviation loc := positive.

(** Dynamic class of a [Transport] object. *)
Inductive Transport := Truck | Ship.

(** Dynamic class of a [Chair] object. *)
Inductive Chair := VictorianChair | ModernChair.

(** Dynamic class of a [Logistics] creator: it has no data member. *)
Inductive Logistics := RoadLogistics | SeaLogistics.

(** Dynamic class of a [FurnitureFactory]: it has no data member. *)
Inductive FurnitureFactory := VictorianFactory | ModernFactory.

(** An object with its data members.  A pointer member holds [None] until
    it is first assigned. *)
Inductive Obj :=
| OTransport (cls : Transport)
| OChair (cls : Chair)
| OHouse (parts : list string)
| OSimpleHouseBuilder (house : option loc)
| ODirector (builder : option loc).

Record World := mkWorld {
  heap : gmap loc Obj;   (* the live objects, automatic and dynamic *)
  cout : string          (* what was written to std::cout *)
}.

(** [new] and the declaration of a local object take storage that no live
    object occupies; nothing more is known of the address. *)
Class Allocator := {
  alloc : gset loc → loc;
  alloc_fresh : ∀ s, alloc s ∉ s
}.

(** One allocator: the least address above the live ones. *)
Definition fresh_allocator : Allocator :=
  {| alloc := fresh; alloc_fresh := is_fresh |}.

(** ** The monad of computations *)

Definition M (A : Type) : Type := World → option (A * World).

#[global] Instance M_ret : MRet M := λ A a w, Some (a, w).

#[global] Instance M_bind : MBind M := λ A B f m w,
  match m w with
  | Some (a, w') => f a w'
  | None => None
  end.

(** Undefined behaviour. *)
Definition undefined {A} : M A := λ _, None.

Section Primitives.
Context `{!Allocator}.

(** Storage for a new object holding [o]. *)
Definition new (o : Obj) : M loc := λ w,
  let p := alloc (dom (heap w)) in
  Some (p, mkWorld (<[p := o]> (heap w)) (cout w)).
End Primitives.

(** [*p] *)
Definition load (p : loc) : M Obj := λ w,
  match heap w !! p with
  | Some o => Some (o, w)
  | None => None
  end.

(** [*p = o] *)
Definition store (p : loc) (o : Obj) : M unit := λ w,
  match heap w !! p with
  | Some _ => Some ((), mkWorld (<[p := o]> (heap w)) (cout w))
  | None => None
  end.

(** End of the lifetime of [*p]. *)
Definition release (p : loc) : M unit := λ w,
  match heap w !! p with
  | Some _ => Some ((), mkWorld (delete p (heap w)) (cout w))
  | None => None
  end.

(** [std::cout << s] *)
Definition print (s : string) : M unit := λ w,
  Some ((), mkWorld (heap w) (cout w +:+ s)).

(** The line terminator written by the program. *)
Definition nl : string := String (Ascii.ascii_of_nat 10) EmptyString.

(** A pointer member that was assigned. *)
Definition assigned (p : option loc) : M loc :=
  match p with
  | Some l => mret l
  | None => undefined
  end.

(** ** Factory Method *)

(** [Transport::deliver], dispatched on the dynamic class of [*this]. *)
Definition deliver (this : loc) : M string :=
  o ← load this;
  match o with
  | OTransport Truck => mret "Delivery by Truck"
  | OTransport Ship => mret "Delivery by Ship"
  | _ => undefined
  end.

Section FactoryMethod.
Context `{!Allocator}.

Definition createTransport (this : Logistics) : M loc :=
  match this with
  | RoadLogistics => new (OTransport Truck)
  | SeaLogistics => new (OTransport Ship)
  end.

(** The operands of [<<] are evaluated and written from left to right;
    the [unique_ptr] releases the product when the scope ends. *)
Definition planDelivery (this : Logistics) : M unit :=
  t ← createTransport this;
  print "[Factory Method] ";;
  d ← deliver t;
  print d;;
  print nl;;
  release t.
End FactoryMethod.

(** ** Abstract Factory *)

(** [Chair::type], dispatched on the dynamic class of [*this]. *)
Definition type (this : loc) : M string :=
  o ← load this;
  match o with
  | OChair VictorianChair => mret "Victorian Chair"
  | OChair ModernChair => mret "Modern Chair"
  | _ => undefined
  end.

Section AbstractFactory.
Context `{!Allocator}.

Definition createChair (this : FurnitureFactory) : M loc :=
  match this with
  | VictorianFactory => new (OChair VictorianChair)
  | ModernFactory => new (OChair ModernChair)
  end.

Definition showFurniture (factory : FurnitureFactory) : M unit :=
  c ← createChair factory;
  print "[Abstract Factory] Created: ";;
  d ← type c;
  print d;;
  print nl;;
  release c.
End AbstractFactory.

(** ** Builder *)

Module House.
(** The member [parts] of [*this]. *)
Definition parts (this : loc) : M (list string) :=
  o ← load this;
  match o with
  | OHouse ps => mret ps
  | _ => undefined
  end.

(** [parts.push_back(part)] *)
Definition addPart (this : loc) (part : string) : M unit :=
  ps ← parts this;
  store this (OHouse (ps ++ [part])).

(** The body of the range-based [for] of [show]. *)
Fixpoint show_parts (ps : list string) : M unit :=
  match ps with
  | [] => mret ()
  | p :: ps' => print p;; print " ";; show_parts ps'
  end.

Definition show (this : loc) : M unit :=
  print "[Builder] House with: ";;
  ps ← parts this;
  show_parts ps;;
  print nl.
End House.

Module SimpleHouseBuilder.
(** The member [house] of [*this]. *)
Definition house (this : loc) : M loc :=
  o ← load this;
  match o with
  | OSimpleHouseBuilder p => assigned p
  | _ => undefined
  end.

Definition buildWalls (this : loc) : M unit :=
  h ← house this; House.addPart h "Walls".

Definition buildDoors (this : loc) : M unit :=
  h ← house this; House.addPart h "Doors".

Definition buildWindows (this : loc) : M unit :=
  h ← house this; House.addPart h "Windows".

(** The destructor body, [delete house]. *)
Definition destroy (this : loc) : M unit :=
  h ← house this; release h.

Section WithAllocator.
Context `{!Allocator}.

(** The constructor body, [house = new House()]. *)
Definition construct (this : loc) : M unit :=
  h ← new (OHouse []);
  store this (OSimpleHouseBuilder (Some h)).

(** The declaration [SimpleHouseBuilder builder;]: storage for the
    object, then its constructor. *)
Definition declare : M loc :=
  this ← new (OSimpleHouseBuilder None);
  construct this;;
  mret this.

Definition getResult (this : loc) : M loc :=
  result ← house this;
  h ← new (OHouse []);
  store this (OSimpleHouseBuilder (Some h));;
  mret result.
End WithAllocator.
End SimpleHouseBuilder.

(** The virtual member functions of [HouseBuilder], dispatched on the
    dynamic class of [*this]; [SimpleHouseBuilder] is the one class that
    overrides them. *)
Module HouseBuilder.
Definition buildWalls (this : loc) : M unit :=
  o ← load this;
  match o with
  | OSimpleHouseBuilder _ => SimpleHouseBuilder.buildWalls this
  | _ => undefined
  end.

Definition buildDoors (this : loc) : M unit :=
  o ← load this;
  match o with
  | OSimpleHouseBuilder _ => SimpleHouseBuilder.buildDoors this
  | _ => undefined
  end.

Definition buildWindows (this : loc) : M unit :=
  o ← load this;
  match o with
  | OSimpleHouseBuilder _ => SimpleHouseBuilder.buildWindows this
  | _ => undefined
  end.

Definition getResult `{!Allocator} (this : loc) : M loc :=
  o ← load this;
  match o with
  | OSimpleHouseBuilder _ => SimpleHouseBuilder.getResult this
  | _ => undefined
  end.
End HouseBuilder.

Module Director.
(** The member [builder] of [*this]. *)
Definition builder (this : loc) : M loc :=
  o ← load this;
  match o with
  | ODirector p => assigned p
  | _ => undefined
  end.

(** The declaration [Director director;]: the class has no constructor,
    so [builder] starts unassigned. *)
Definition declare `{!Allocator} : M loc := new (ODirector None).

Definition setBuilder (this : loc) (b : loc) : M unit :=
  o ← load this;
  match o with
  | ODirector _ => store this (ODirector (Some b))
  | _ => undefined
  end.

Definition buildMinimalHouse (this : loc) : M unit :=
  b ← builder this; HouseBuilder.buildWalls b;;
  b ← builder this; HouseBuilder.buildDoors b.

Definition buildFullHouse (this : loc) : M unit :=
  b ← builder this; HouseBuilder.buildWalls b;;
  b ← builder this; HouseBuilder.buildDoors b;;
  b ← builder this; HouseBuilder.buildWindows b.
End Director.

(** ** The driver *)

Section Main.
Context `{!Allocator}.

Definition main : M Z :=
  let road := RoadLogistics in
  let sea := SeaLogistics in
  planDelivery road;;
  planDelivery sea;;
  let vf := VictorianFactory in
  let mf := ModernFactory in
  showFurniture vf;;
  showFurniture mf;;
  builder ← SimpleHouseBuilder.declare;
  director ← Director.declare;
  Director.setBuilder director builder;;
  Director.buildMinimalHouse director;;
  h1 ← SimpleHouseBuilder.getResult builder;
  House.show h1;;
  Director.buildFullHouse director;;
  h2 ← SimpleHouseBuilder.getResult builder;
  House.show h2;;
  (* return 0: the locals end in reverse order of declaration *)
  release h2;;
  release h1;;
  release director;;
  SimpleHouseBuilder.destroy builder;;
  release builder;;
  mret 0%Z.
End Main.

(** ** Client programs used to state the properties *)

(** The three build steps of the builder interface. *)
Inductive Step := Walls | Doors | Windows.

(** The part a step is expected to add. *)
Definition step_name (s : Step) : string :=
  match s with
  | Walls => "Walls"
  | Doors => "Doors"
  | Windows => "Windows"
  end.

(** One call of a build step on the builder object [b]. *)
Definition do_step (b : loc) (s : Step) : M unit :=
  match s with
  | Walls => SimpleHouseBuilder.buildWalls b
  | Doors => SimpleHouseBuilder.buildDoors b
  | Windows => SimpleHouseBuilder.buildWindows b
  end.

(** A sequence of calls of build steps on [b], in the order of the list. *)
Fixpoint do_steps (b : loc) (l : list Step) : M unit :=
  match l with
  | [] => mret ()
  | s :: l' => do_step b s;; do_steps b l'
  end.

(** A call of a member function of the builder interface. *)
Inductive Call := Build (s : Step) | GetResult.

Section Calls.
Context `{!Allocator}.

(** One call on the builder [b], made through a [HouseBuilder*]. *)
Definition do_call (b : loc) (c : Call) : M unit :=
  match c with
  | Build Walls => HouseBuilder.buildWalls b
  | Build Doors => HouseBuilder.buildDoors b
  | Build Windows => HouseBuilder.buildWindows b
  | GetResult => HouseBuilder.getResult b;; mret ()
  end.

(** A sequence of calls on [b], in the order of the list. *)
Fixpoint do_calls (b : loc) (l : list Call) : M unit :=
  match l with
  | [] => mret ()
  | c :: l' => do_call b c;; do_calls b l'
  end.
End Calls.

(** [n] calls of [m] in a row, with their results in call order. *)
Fixpoint times {A} (n : nat) (m : M A) : M (list A) :=
  match n with
  | O => mret []
  | S n' => a ← m; l ← times n' m; mret (a :: l)
  end.

(** [n] copies of [s], concatenated. *)
Fixpoint copies (n : nat) (s : string) : string :=
  match n with
  | O => ""
  | S n' => s +:+ copies n' s
  end.

(** ** States of the builder and of the Director *)

(** The builder object [b] holds the House [h], whose parts are [ps]. *)
Definition holds (w : World) (b h : loc) (ps : list string) : Prop :=
  heap w !! b = Some (OSimpleHouseBuilder (Some h)) ∧
  heap w !! h = Some (OHouse ps).

(** The Director object [d] is attached to the builder [b]. *)
Definition attached (w : World) (d b : loc) : Prop :=
  heap w !! d = Some (ODirector (Some b)).

(** The world [w] with the parts of the House [h] replaced. *)
Definition with_parts (w : World) (h : loc) (ps : list string) : World :=
  mkWorld (<[h := OHouse ps]> (heap w)) (cout w).

Section BuilderStates.
Context `{!Allocator}.

(** The world after [getResult] on the builder [b]. *)
Definition extracted (w : World) (b : loc) : World :=
  let h' := alloc (dom (heap w)) in
  mkWorld (<[b := OSimpleHouseBuilder (Some h')]>
             (<[h' := OHouse []]> (heap w))) (cout w).

(** The builder [b] was just declared, or [getResult] was just called on
    it: no build step was performed since. *)
Inductive reset (b : loc) (w : World) : Prop :=
| reset_declared w0 :
    SimpleHouseBuilder.declare w0 = Some (b, w) → reset b w
| reset_extracted w0 r :
    SimpleHouseBuilder.getResult b w0 = Some (r, w) → reset b w.
End BuilderStates.

(** ** Worlds of the driver, with the allocator [fresh_allocator] *)

(** Before [main]. *)
Definition empty_world : World := mkWorld ∅ "".

(** After [SimpleHouseBuilder builder;]. *)
Definition builder_world : World :=
  mkWorld (<[1 := OSimpleHouseBuilder (Some 2)]> {[2 := OHouse []]})%positive
          "".

(** After [director.setBuilder(&builder)]. *)
Definition site_world : World :=
  mkWorld (<[3 := ODirector (Some 1)]> (heap builder_world))%positive "".

(** After the first [builder.getResult()]. *)
Definition minimal_world : World :=
  mkWorld (<[1 := OSimpleHouseBuilder (Some 4)]>
             (<[4 := OHouse []]>
                (<[2 := OHouse ["Walls"; "Doors"]]> (heap site_world))))%positive
          "".

(** What [main] writes. *)
Definition main_output : string :=
  "[Factory Method] Delivery by Truck" +:+ nl +:+
  "[Factory Method] Delivery by Ship" +:+ nl +:+
  "[Abstract Factory] Created: Victorian Chair" +:+ nl +:+
  "[Abstract Factory] Created: Modern Chair" +:+ nl +:+
  "[Builder] House with: Walls Doors " +:+ nl +:+
  "[Builder] House with: Walls Doors Windows " +:+ nl.

(** ** More client programs *)

(** The parts of a House as [show] writes them: a space after each. *)
Definition shown (ps : list string) : string :=
  foldr (λ p s, p +:+ " " +:+ s) "" ps.

(** The calls of the Director. *)
Inductive Plan := Minimal | Full.

(** One call on the Director object [d]. *)
Definition do_plan (d : loc) (p : Plan) : M unit :=
  match p with
  | Minimal => Director.buildMinimalHouse d
  | Full => Director.buildFullHouse d
  end.

(** A sequence of calls on the Director [d], in the order of the list. *)
Fixpoint do_plans (d : loc) (l : list Plan) : M unit :=
  match l with
  | [] => mret ()
  | p :: l' => do_plan d p;; do_plans d l'
  end.

(** The parts a call of the Director is expected to add. *)
Definition plan_parts (p : Plan) : list string :=
  match p with
  | Minimal => ["Walls"; "Doors"]
  | Full => ["Walls"; "Doors"; "Windows"]
  end.

Section Products.
Context `{!Allocator}.

(** One product: the build steps [l] on the builder [b], then
    [getResult]. *)
Definition build (b : loc) (l : list Step) : M loc :=
  do_steps b l;; SimpleHouseBuilder.getResult b.

(** Several products in a row on the builder [b], all kept by the caller. *)
Fixpoint build_all (b : loc) (ls : list (list Step)) : M (list loc) :=
  match ls with
  | [] => mret []
  | l :: ls' => r ← build b l; rs ← build_all b ls'; mret (r :: rs)
  end.

(** Several products in a row on [b], each deleted by the caller before
    the next one is built. *)
Fixpoint build_and_drop (b : loc) (ls : list (list Step)) : M unit :=
  match ls with
  | [] => mret ()
  | l :: ls' => r ← build b l; release r;; build_and_drop b ls'
  end.

(** The life of a local builder: its declaration, some products, and the
    end of its scope (the destructor, then the storage). *)
Definition builder_scope (ls : list (list Step)) : M unit :=
  b ← SimpleHouseBuilder.declare;
  build_and_drop b ls;;
  SimpleHouseBuilder.destroy b;;
  release b.
End Products.

(** The objects [hp] are the objects [m], the builder [b] and the House
    [h] it holds, whose parts are [ps]. *)
Definition building (m hp : gmap loc Obj) (b h : loc) (ps : list string)
  : Prop :=
  hp = <[b := OSimpleHouseBuilder (Some h)]> (<[h := OHouse ps]> m) ∧
  m !! b = None ∧ m !! h = None ∧ b ≠ h.

(** The driver's world after [setBuilder], with a second builder that
    holds a House with one part. *)
Definition second_builder_world : World :=
  mkWorld (<[5 := OSimpleHouseBuilder (Some 6)]>
             (<[6 := OHouse ["Doors"]]> (heap site_world)))%positive "".

(** ** Running computations *)

Ltac unfold_bind := unfold mbind, M_bind, mret, M_ret.

Lemma bind_run {A B} (m : M A) (f : A → M B) w a w' :
  m w = Some (a, w') → (m ≫= f) w = f a w'.
Proof. intros E. unfold_bind. by rewrite E. Qed.

Lemma append_assoc (s1 s2 s3 : string) :
  (s1 +:+ s2) +:+ s3 = s1 +:+ (s2 +:+ s3).
Proof.
  induction s1 as [|a s1 IH]; [done|].
  change (String a ((s1 +:+ s2) +:+ s3) = String a (s1 +:+ (s2 +:+ s3))).
  by rewrite IH.
Qed.

Lemma append_empty_r (s : string) : s +:+ "" = s.
Proof.
  induction s as [|a s IH]; [done|].
  change (String a (s +:+ "") = String a s). by rewrite IH.
Qed.

(** [n] calls of a computation that returns and changes the output only. *)
Lemma times_output {A} (m : M A) (a : A) (line : string) :
  (∀ w, m w = Some (a, mkWorld (heap w) (cout w +:+ line))) →
  ∀ n w, times n m w =
         Some (replicate n a, mkWorld (heap w) (cout w +:+ copies n line)).
Proof.
  intros Hm. induction n as [|n IH]; intros w; simpl.
  - unfold_bind. rewrite append_empty_r. by destruct w.
  - rewrite (bind_run _ _ _ _ _ (Hm w)), (bind_run _ _ _ _ _ (IH _)).
    simpl. unfold_bind. by rewrite append_assoc.
Qed.

(** [n] calls of a computation that returns the same value in any world. *)
Lemma times_value {A} (m : M A) (a : A) :
  (∀ w, ∃ w', m w = Some (a, w')) →
  ∀ n w, ∃ w', times n m w = Some (replicate n a, w').
Proof.
  intros Hm. induction n as [|n IH]; intros w; simpl.
  - by exists w.
  - destruct (Hm w) as [w1 E1]. destruct (IH w1) as [w2 E2].
    exists w2. by rewrite (bind_run _ _ _ _ _ E1), (bind_run _ _ _ _ _ E2).
Qed.

(** ** The builder *)

Lemma addPart_run w h ps x :
  heap w !! h = Some (OHouse ps) →
  House.addPart h x w = Some ((), with_parts w h (ps ++ [x])).
Proof.
  intros E. unfold House.addPart, House.parts, load, store, mbind, M_bind.
  by rewrite E; simpl; rewrite E.
Qed.

Lemma house_run w b h ps :
  holds w b h ps → SimpleHouseBuilder.house b w = Some (h, w).
Proof.
  intros [Eb _]. unfold SimpleHouseBuilder.house, load, mbind, M_bind.
  by rewrite Eb.
Qed.

Lemma holds_ne w b h ps : holds w b h ps → b ≠ h.
Proof. intros [Eb Eh] ->. congruence. Qed.

Lemma holds_with_parts w b h ps ps' :
  holds w b h ps → holds (with_parts w h ps') b h ps'.
Proof.
  intros Hh. pose proof (holds_ne _ _ _ _ Hh) as Hne. destruct Hh as [Eb Eh].
  split; simpl; [by rewrite lookup_insert_ne | by rewrite lookup_insert_eq].
Qed.

Lemma do_step_run w b h ps s :
  holds w b h ps →
  do_step b s w = Some ((), with_parts w h (ps ++ [step_name s])).
Proof.
  intros Hh.
  destruct s; simpl;
    unfold SimpleHouseBuilder.buildWalls, SimpleHouseBuilder.buildDoors,
      SimpleHouseBuilder.buildWindows;
    rewrite (bind_run _ _ _ _ _ (house_run _ _ _ _ Hh));
    apply addPart_run, Hh.
Qed.

Lemma with_parts_twice w h ps ps' :
  with_parts (with_parts w h ps) h ps' = with_parts w h ps'.
Proof. unfold with_parts; simpl. by rewrite insert_insert_eq. Qed.

Lemma with_parts_frame w h ps p :
  p ≠ h → heap (with_parts w h ps) !! p = heap w !! p.
Proof. intros Hne. unfold with_parts; simpl. by rewrite lookup_insert_ne. Qed.

Lemma with_parts_same w h ps :
  heap w !! h = Some (OHouse ps) → with_parts w h ps = w.
Proof.
  intros E. destruct w as [m o]. unfold with_parts; simpl in *.
  by rewrite insert_id.
Qed.

Lemma do_steps_run w b h ps l :
  holds w b h ps →
  do_steps b l w = Some ((), with_parts w h (ps ++ (step_name <$> l))).
Proof.
  revert w ps. induction l as [|s l IH]; intros w ps Hh; simpl.
  - rewrite app_nil_r, with_parts_same; [done | apply Hh].
  - rewrite (bind_run _ _ _ _ _ (do_step_run _ _ _ _ s Hh)).
    rewrite (IH _ _ (holds_with_parts _ _ _ _ _ Hh)).
    by rewrite with_parts_twice, <- app_assoc.
Qed.

(** A build step that returns was called on a builder that holds a House. *)
Lemma do_step_inv w b s u w' :
  do_step b s w = Some (u, w') → ∃ h ps, holds w b h ps.
Proof.
  unfold holds. intros E.
  destruct (heap w !! b) as [[| | |[h|]|]|] eqn:Eb;
    try (destruct s; simpl in E;
         unfold SimpleHouseBuilder.buildWalls, SimpleHouseBuilder.buildDoors,
           SimpleHouseBuilder.buildWindows, SimpleHouseBuilder.house,
           load, mbind, M_bind in E;
         rewrite Eb in E; discriminate).
  destruct (heap w !! h) as [[| |ps| |]|] eqn:Eh; [| |by eauto| | |];
    destruct s; simpl in E;
    unfold SimpleHouseBuilder.buildWalls, SimpleHouseBuilder.buildDoors,
      SimpleHouseBuilder.buildWindows, SimpleHouseBuilder.house,
      House.addPart, House.parts, load, mbind, M_bind in E;
    rewrite Eb in E; simpl in E; rewrite Eh in E; discriminate.
Qed.

Section BuilderRuns.
Context `{!Allocator}.

Lemma alloc_not_live (m : gmap loc Obj) p o :
  m !! p = Some o → alloc (dom m) ≠ p.
Proof.
  intros E Ep. apply (alloc_fresh (dom m)).
  rewrite Ep. apply elem_of_dom; eauto.
Qed.

Lemma getResult_run w b h :
  heap w !! b = Some (OSimpleHouseBuilder (Some h)) →
  SimpleHouseBuilder.getResult b w = Some (h, extracted w b).
Proof.
  intros Eb. unfold SimpleHouseBuilder.getResult, SimpleHouseBuilder.house.
  unfold load, new, store, mbind, M_bind. rewrite Eb; simpl.
  rewrite lookup_insert_ne by (by eapply alloc_not_live).
  by rewrite Eb.
Qed.

Lemma getResult_inv w b r w' :
  SimpleHouseBuilder.getResult b w = Some (r, w') →
  heap w !! b = Some (OSimpleHouseBuilder (Some r)).
Proof.
  unfold SimpleHouseBuilder.getResult, SimpleHouseBuilder.house.
  unfold load, new, store, mbind, M_bind. intros E.
  destruct (heap w !! b) as [[| | |[h|]|]|] eqn:Eb; try discriminate.
  simpl in E.
  rewrite lookup_insert_ne in E by (by eapply alloc_not_live).
  rewrite Eb in E. unfold mret, M_ret in E. by simplify_eq.
Qed.

Lemma extracted_holds w b h :
  heap w !! b = Some (OSimpleHouseBuilder (Some h)) →
  holds (extracted w b) b (alloc (dom (heap w))) [].
Proof.
  intros Eb. split; simpl; [by rewrite lookup_insert_eq|].
  rewrite lookup_insert_ne by (symmetry; by eapply alloc_not_live).
  by rewrite lookup_insert_eq.
Qed.

(** [getResult] leaves every other live object as it was. *)
Lemma extracted_frame w b p o :
  p ≠ b → heap w !! p = Some o → heap (extracted w b) !! p = Some o.
Proof.
  intros Hne Ep. simpl. rewrite lookup_insert_ne by done.
  by rewrite lookup_insert_ne by (by eapply alloc_not_live).
Qed.

Lemma declare_run w :
  ∃ b h w', SimpleHouseBuilder.declare w = Some (b, w') ∧ holds w' b h [].
Proof.
  unfold SimpleHouseBuilder.declare, SimpleHouseBuilder.construct.
  unfold new, store, mbind, M_bind, mret, M_ret; simpl.
  set (b := alloc (dom (heap w))).
  set (h := alloc (dom (<[b := OSimpleHouseBuilder None]> (heap w)))).
  assert (h ≠ b) as Hne.
  { eapply alloc_not_live. by rewrite lookup_insert_eq. }
  rewrite lookup_insert_ne, lookup_insert_eq by done.
  eexists b, h, _. split; [done|].
  split; simpl; [by rewrite lookup_insert_eq|].
  by rewrite lookup_insert_ne, lookup_insert_eq.
Qed.
End BuilderRuns.

(** ** The Director *)

Lemma virtual_buildWalls b w :
  HouseBuilder.buildWalls b w = SimpleHouseBuilder.buildWalls b w.
Proof.
  unfold HouseBuilder.buildWalls, SimpleHouseBuilder.buildWalls,
    SimpleHouseBuilder.house, load, mbind, M_bind.
  destruct (heap w !! b) as [[]|] eqn:E; simpl; by rewrite ?E.
Qed.

Lemma virtual_buildDoors b w :
  HouseBuilder.buildDoors b w = SimpleHouseBuilder.buildDoors b w.
Proof.
  unfold HouseBuilder.buildDoors, SimpleHouseBuilder.buildDoors,
    SimpleHouseBuilder.house, load, mbind, M_bind.
  destruct (heap w !! b) as [[]|] eqn:E; simpl; by rewrite ?E.
Qed.

Lemma virtual_buildWindows b w :
  HouseBuilder.buildWindows b w = SimpleHouseBuilder.buildWindows b w.
Proof.
  unfold HouseBuilder.buildWindows, SimpleHouseBuilder.buildWindows,
    SimpleHouseBuilder.house, load, mbind, M_bind.
  destruct (heap w !! b) as [[]|] eqn:E; simpl; by rewrite ?E.
Qed.

Lemma builder_run w d b : attached w d b → Director.builder d w = Some (b, w).
Proof.
  unfold attached, Director.builder, load, mbind, M_bind. by intros ->.
Qed.

(** A build step writes to a House only. *)
Lemma do_step_keeps_attached w b s u w' d b' :
  do_step b s w = Some (u, w') → attached w d b' → attached w' d b'.
Proof.
  intros E Hd. destruct (do_step_inv _ _ _ _ _ E) as (h & ps & Hh).
  rewrite (do_step_run _ _ _ _ s Hh) in E. simplify_eq.
  unfold attached, with_parts in *; simpl.
  rewrite lookup_insert_ne; [done|]. intros ->. destruct Hh. congruence.
Qed.

(** The calls that [buildMinimalHouse] makes on the attached builder. *)
Lemma buildMinimalHouse_calls w d b :
  attached w d b →
  Director.buildMinimalHouse d w =
    (HouseBuilder.buildWalls b;; HouseBuilder.buildDoors b) w.
Proof.
  intros Hd. unfold Director.buildMinimalHouse.
  rewrite (bind_run _ _ _ _ _ (builder_run _ _ _ Hd)).
  unfold mbind at 1 3, M_bind. rewrite virtual_buildWalls.
  destruct (SimpleHouseBuilder.buildWalls b w) as [[u w1]|] eqn:E1; [|done].
  pose proof (do_step_keeps_attached w b Walls _ _ _ _ E1 Hd) as Hd1.
  by rewrite (bind_run _ _ _ _ _ (builder_run _ _ _ Hd1)).
Qed.

(** The calls that [buildFullHouse] makes on the attached builder. *)
Lemma buildFullHouse_calls w d b :
  attached w d b →
  Director.buildFullHouse d w =
    (HouseBuilder.buildWalls b;; HouseBuilder.buildDoors b;;
     HouseBuilder.buildWindows b) w.
Proof.
  intros Hd. unfold Director.buildFullHouse.
  rewrite (bind_run _ _ _ _ _ (builder_run _ _ _ Hd)).
  unfold mbind at 1 5, M_bind. rewrite virtual_buildWalls.
  destruct (SimpleHouseBuilder.buildWalls b w) as [[u w1]|] eqn:E1; [|done].
  pose proof (do_step_keeps_attached w b Walls _ _ _ _ E1 Hd) as Hd1.
  rewrite (bind_run _ _ _ _ _ (builder_run _ _ _ Hd1)).
  unfold mbind at 1 3, M_bind. rewrite virtual_buildDoors.
  destruct (SimpleHouseBuilder.buildDoors b w1) as [[u2 w2]|] eqn:E2; [|done].
  pose proof (do_step_keeps_attached w1 b Doors _ _ _ _ E2 Hd1) as Hd2.
  by rewrite (bind_run _ _ _ _ _ (builder_run _ _ _ Hd2)).
Qed.

Lemma minimal_calls_steps b w :
  (HouseBuilder.buildWalls b;; HouseBuilder.buildDoors b) w =
  do_steps b [Walls; Doors] w.
Proof.
  simpl. unfold mbind, M_bind. rewrite virtual_buildWalls.
  destruct (SimpleHouseBuilder.buildWalls b w) as [[u w1]|]; [|done].
  rewrite virtual_buildDoors.
  by destruct (SimpleHouseBuilder.buildDoors b w1) as [[[] w2]|].
Qed.

Lemma full_calls_steps b w :
  (HouseBuilder.buildWalls b;; HouseBuilder.buildDoors b;;
   HouseBuilder.buildWindows b) w =
  do_steps b [Walls; Doors; Windows] w.
Proof.
  simpl. unfold mbind, M_bind. rewrite virtual_buildWalls.
  destruct (SimpleHouseBuilder.buildWalls b w) as [[u w1]|]; [|done].
  rewrite virtual_buildDoors.
  destruct (SimpleHouseBuilder.buildDoors b w1) as [[u1 w2]|]; [|done].
  rewrite virtual_buildWindows.
  by destruct (SimpleHouseBuilder.buildWindows b w2) as [[[] w3]|].
Qed.

Lemma buildMinimalHouse_run w d b h ps :
  attached w d b → holds w b h ps →
  Director.buildMinimalHouse d w =
    Some ((), with_parts w h (ps ++ ["Walls"; "Doors"])).
Proof.
  intros Hd Hh. rewrite (buildMinimalHouse_calls _ _ _ Hd).
  rewrite minimal_calls_steps.
  apply (do_steps_run _ _ _ _ [Walls; Doors] Hh).
Qed.

Lemma buildFullHouse_run w d b h ps :
  attached w d b → holds w b h ps →
  Director.buildFullHouse d w =
    Some ((), with_parts w h (ps ++ ["Walls"; "Doors"; "Windows"])).
Proof.
  intros Hd Hh. rewrite (buildFullHouse_calls _ _ _ Hd).
  rewrite full_calls_steps.
  apply (do_steps_run _ _ _ _ [Walls; Doors; Windows] Hh).
Qed.

Section CallRuns.
Context `{!Allocator}.

Lemma do_call_Build b s w : do_call b (Build s) w = do_step b s w.
Proof.
  destruct s; simpl;
    [apply virtual_buildWalls | apply virtual_buildDoors
    | apply virtual_buildWindows].
Qed.

Lemma do_call_GetResult w b h ps :
  holds w b h ps → do_call b GetResult w = Some ((), extracted w b).
Proof.
  intros [Eb Eh]. simpl. unfold HouseBuilder.getResult, load.
  unfold mbind at 1 2, M_bind. rewrite Eb.
  by rewrite (getResult_run _ _ _ Eb).
Qed.

Lemma with_parts_size w h ps ps' :
  heap w !! h = Some (OHouse ps) →
  size (heap (with_parts w h ps')) = size (heap w).
Proof. intros E. unfold with_parts; simpl. by apply map_size_insert_Some. Qed.

Lemma extracted_size w b h :
  heap w !! b = Some (OSimpleHouseBuilder (Some h)) →
  size (heap (extracted w b)) = S (size (heap w)).
Proof.
  intros Eb. unfold extracted; simpl.
  rewrite map_size_insert_Some.
  - apply map_size_insert_None. apply not_elem_of_dom, alloc_fresh.
  - rewrite lookup_insert_ne; [by rewrite Eb|]. by eapply alloc_not_live.
Qed.

(** A sequence of calls on a builder that holds a House returns; either
    it has build steps only, and then it adds their names to that House,
    or it has a [getResult], and then there are more objects after it. *)
Lemma do_calls_run l : ∀ w b h ps,
  holds w b h ps →
  ∃ w', do_calls b l w = Some ((), w') ∧
        ((∃ steps, l = Build <$> steps ∧
                   w' = with_parts w h (ps ++ (step_name <$> steps))) ∨
         size (heap w) < size (heap w')).
Proof.
  induction l as [|[s|] l IH]; intros w b h ps Hh.
  - exists w. split; [done|]. left. exists []. split; [done|].
    simpl. rewrite app_nil_r. symmetry. apply with_parts_same, Hh.
  - pose proof (do_step_run _ _ _ _ s Hh) as E.
    rewrite <- do_call_Build in E.
    pose proof (holds_with_parts _ _ _ _ (ps ++ [step_name s]) Hh) as Hh1.
    destruct (IH _ _ _ _ Hh1) as (w' & E' & Hw').
    exists w'. simpl do_calls. rewrite (bind_run _ _ _ _ _ E).
    split; [done|]. destruct Hw' as [(steps & -> & ->)|Hlt].
    + left. exists (s :: steps). split; [done|].
      by rewrite with_parts_twice, <- app_assoc.
    + right. by rewrite (with_parts_size _ _ ps) in Hlt by apply Hh.
  - pose proof (do_call_GetResult _ _ _ _ Hh) as E.
    destruct Hh as [Eb Eh].
    pose proof (extracted_holds _ _ _ Eb) as Hh1.
    destruct (IH _ _ _ _ Hh1) as (w' & E' & Hw').
    exists w'. simpl do_calls. rewrite (bind_run _ _ _ _ _ E).
    split; [done|]. right.
    pose proof (extracted_size _ _ _ Eb) as Hs.
    destruct Hw' as [(steps & -> & ->)|Hlt]; [|lia].
    rewrite (with_parts_size _ _ []) by apply Hh1. lia.
Qed.

#[local] Instance step_name_inj : Inj (=) (=) step_name.
Proof. by intros [] []. Qed.

(** The sequence of calls whose effect is to add the names of [steps] is
    the sequence of those steps. *)
Lemma do_calls_unique w b h ps l steps :
  holds w b h ps →
  do_calls b l w = Some ((), with_parts w h (ps ++ (step_name <$> steps))) →
  l = Build <$> steps.
Proof.
  intros Hh E. destruct (do_calls_run l _ _ _ _ Hh) as (w' & E' & Hw').
  rewrite E in E'. simplify_eq.
  destruct Hw' as [(steps' & -> & Hw)|Hlt].
  - f_equal. apply (f_equal (λ w, heap w !! h)) in Hw.
    unfold with_parts in Hw; simpl in Hw.
    rewrite !lookup_insert_eq in Hw. simplify_eq.
    symmetry. by apply (inj (fmap step_name)).
  - rewrite (with_parts_size _ _ ps) in Hlt by apply Hh. lia.
Qed.
End CallRuns.

(** ** The claims on the builder *)

Section BuilderClaims.
Context `{!Allocator}.

Lemma reset_holds b w : reset b w → ∃ h, holds w b h [].
Proof.
  intros [w0 E | w0 r E].
  - destruct (declare_run w0) as (b' & h & w' & E' & Hh).
    rewrite E in E'. simplify_eq. eauto.
  - pose proof (getResult_inv _ _ _ _ E) as Eb.
    rewrite (getResult_run _ _ _ Eb) in E. simplify_eq.
    eexists. by eapply extracted_holds.
Qed.

(** C1: after a builder is declared or [getResult] is called on it, any
    sequence of build steps followed by [getResult] returns a House whose
    parts are the names of the steps in call order; at each call of the
    sequence the step adds its one part after those already there. *)
Theorem builder_parts_in_call_order b w l :
  reset b w →
  (∃ r w', (do_steps b l;; SimpleHouseBuilder.getResult b) w = Some (r, w') ∧
           heap w' !! r = Some (OHouse (step_name <$> l))) ∧
  (∀ l1 s l2, l = l1 ++ s :: l2 →
     ∃ h w1 w2, do_steps b l1 w = Some ((), w1) ∧
                holds w1 b h (step_name <$> l1) ∧
                do_step b s w1 = Some ((), w2) ∧
                holds w2 b h ((step_name <$> l1) ++ [step_name s])).
Proof.
  intros Hr. destruct (reset_holds _ _ Hr) as [h Hh]. split.
  - pose proof (holds_with_parts _ _ _ _ (step_name <$> l) Hh) as Hh'.
    exists h, (extracted (with_parts w h (step_name <$> l)) b).
    pose proof (do_steps_run _ _ _ _ l Hh) as E. rewrite app_nil_l in E.
    rewrite (bind_run _ _ _ _ _ E).
    split; [apply getResult_run, Hh'|].
    apply extracted_frame; [symmetry; by eapply holds_ne | apply Hh'].
  - intros l1 s l2 _.
    pose proof (holds_with_parts _ _ _ _ (step_name <$> l1) Hh) as Hh1.
    pose proof (do_steps_run _ _ _ _ l1 Hh) as E. rewrite app_nil_l in E.
    eexists h, _, _. split; [done|].
    split; [done|]. split; [by apply do_step_run|].
    by eapply holds_with_parts.
Qed.

(** C4: [getResult] returns the House the builder held and leaves the
    builder with a new House that has no parts; the build steps that
    follow add their parts to the new House and leave the returned one
    as it was. *)
Theorem getResult_resets_builder w b h ps :
  holds w b h ps →
  ∃ h' w1,
    SimpleHouseBuilder.getResult b w = Some (h, w1) ∧
    (h' ∉ dom (heap w)) ∧ h' ≠ h ∧
    holds w1 b h' [] ∧
    heap w1 !! h = Some (OHouse ps) ∧
    ∀ l, ∃ w2, do_steps b l w1 = Some ((), w2) ∧
               holds w2 b h' (step_name <$> l) ∧
               heap w2 !! h = Some (OHouse ps).
Proof.
  intros Hh. pose proof Hh as [Eb Eh].
  pose proof (extracted_holds _ _ _ Eb) as Hh'.
  assert (heap (extracted w b) !! h = Some (OHouse ps)) as Eh'.
  { apply extracted_frame; [symmetry; by eapply holds_ne | done]. }
  exists (alloc (dom (heap w))), (extracted w b).
  split; [by apply getResult_run|].
  split; [apply alloc_fresh|].
  split; [by eapply alloc_not_live|].
  split; [done|]. split; [done|].
  intros l.
  pose proof (do_steps_run _ _ _ _ l Hh') as E. rewrite app_nil_l in E.
  eexists. split; [done|].
  split; [by eapply holds_with_parts|].
  unfold with_parts; simpl. rewrite lookup_insert_ne; [done|].
  by eapply alloc_not_live.
Qed.

(** C7: two calls of [buildWalls] before [getResult] add "Walls" twice. *)
Theorem buildWalls_twice_adds_twice w b h ps :
  holds w b h ps →
  ∃ w', (SimpleHouseBuilder.buildWalls b;;
         SimpleHouseBuilder.buildWalls b;;
         SimpleHouseBuilder.getResult b) w = Some (h, w') ∧
        heap w' !! h = Some (OHouse (ps ++ ["Walls"; "Walls"])).
Proof.
  intros Hh.
  pose proof (do_steps_run _ _ _ _ [Walls; Walls] Hh) as E.
  pose proof (holds_with_parts _ _ _ _ (ps ++ ["Walls"; "Walls"]) Hh) as Hh'.
  simpl in E. unfold mbind, M_bind, mret, M_ret in *.
  destruct (SimpleHouseBuilder.buildWalls b w) as [[[] w1]|]; [|done].
  destruct (SimpleHouseBuilder.buildWalls b w1) as [[[] w2]|]; [|done].
  simplify_eq. eexists. split; [apply getResult_run, Hh'|].
  apply extracted_frame; [symmetry; by eapply holds_ne | apply Hh'].
Qed.

(** C9: [getResult] on a builder that was just declared returns a House
    with no parts. *)
Theorem getResult_of_new_builder_is_empty w :
  ∃ r w', (b ← SimpleHouseBuilder.declare;
           SimpleHouseBuilder.getResult b) w = Some (r, w') ∧
          heap w' !! r = Some (OHouse []).
Proof.
  destruct (declare_run w) as (b & h & w1 & E & Hh).
  exists h, (extracted w1 b). rewrite (bind_run _ _ _ _ _ E).
  split; [apply getResult_run, Hh|].
  apply extracted_frame; [symmetry; by eapply holds_ne | apply Hh].
Qed.
End BuilderClaims.

(** ** The claims on the Director *)

Section DirectorClaims.
Context `{!Allocator}.

(** C5: from a builder that holds a House with no parts,
    [buildMinimalHouse] on the Director attached to it and then
    [getResult] return a House whose parts are "Walls", "Doors". *)
Theorem minimal_house_parts w d b h :
  attached w d b → holds w b h [] →
  ∃ w', (Director.buildMinimalHouse d;;
         SimpleHouseBuilder.getResult b) w = Some (h, w') ∧
        heap w' !! h = Some (OHouse ["Walls"; "Doors"]).
Proof.
  intros Hd Hh.
  pose proof (holds_with_parts _ _ _ _ ["Walls"; "Doors"] Hh) as Hh'.
  rewrite (bind_run _ _ _ _ _ (buildMinimalHouse_run _ _ _ _ _ Hd Hh)).
  rewrite app_nil_l. eexists. split; [apply getResult_run, Hh'|].
  apply extracted_frame; [symmetry; by eapply holds_ne | apply Hh'].
Qed.

(** C6: right after the extraction of the minimal House [h1],
    [buildFullHouse] and then [getResult] on the same builder return a
    House whose parts are "Walls", "Doors", "Windows"; it is another
    object than [h1], and [h1] still has the parts "Walls", "Doors". *)
Theorem full_house_after_minimal w d b h h1 w1 :
  attached w d b → holds w b h [] →
  (Director.buildMinimalHouse d;;
   SimpleHouseBuilder.getResult b) w = Some (h1, w1) →
  ∃ h2 w2, (Director.buildFullHouse d;;
            SimpleHouseBuilder.getResult b) w1 = Some (h2, w2) ∧
           h2 ≠ h1 ∧
           heap w2 !! h2 = Some (OHouse ["Walls"; "Doors"; "Windows"]) ∧
           heap w2 !! h1 = Some (OHouse ["Walls"; "Doors"]).
Proof.
  intros Hd Hh E.
  pose proof (holds_with_parts _ _ _ _ ["Walls"; "Doors"] Hh) as HhA.
  rewrite (bind_run _ _ _ _ _ (buildMinimalHouse_run _ _ _ _ _ Hd Hh)) in E.
  rewrite app_nil_l in E.
  rewrite (getResult_run _ _ _ (proj1 HhA)) in E.
  set (wA := with_parts w h ["Walls"; "Doors"]) in *.
  assert (h1 = h ∧ w1 = extracted wA b) as [-> ->] by (split; congruence).
  clear E. rename h into h1.
  set (h2 := alloc (dom (heap wA))).
  assert (b ≠ h1) as Hb1 by (by eapply holds_ne).
  assert (h2 ≠ h1) as H21 by (eapply alloc_not_live, HhA).
  assert (h2 ≠ b) as H2b by (eapply alloc_not_live, HhA).
  pose proof (extracted_holds _ _ _ (proj1 HhA)) as Hh1. fold h2 in Hh1.
  assert (attached (extracted wA b) d b) as Hd1.
  { unfold attached in *. apply extracted_frame.
    - intros ->. destruct Hh. congruence.
    - unfold wA. rewrite with_parts_frame; [done|].
      intros ->. destruct Hh. congruence. }
  pose proof (holds_with_parts _ _ _ _ ["Walls"; "Doors"; "Windows"] Hh1)
    as HhB.
  rewrite (bind_run _ _ _ _ _ (buildFullHouse_run _ _ _ _ _ Hd1 Hh1)).
  rewrite app_nil_l. exists h2. eexists.
  split; [apply getResult_run, HhB|]. split; [done|].
  split.
  - apply extracted_frame; [done | apply HhB].
  - apply extracted_frame; [done|].
    rewrite with_parts_frame by done.
    apply extracted_frame; [done | apply HhA].
Qed.

(** C8: on a Director attached to a builder, [buildMinimalHouse] calls
    [buildWalls] then [buildDoors], and [buildFullHouse] calls
    [buildWalls], [buildDoors] then [buildWindows]; when the builder holds
    a House these are the only sequences of calls of the builder
    interface with that effect, so [getResult] is not among them, and
    the effect is to add these parts to the House the builder holds. *)
Theorem director_call_sequences w d b :
  attached w d b →
  Director.buildMinimalHouse d w =
    (HouseBuilder.buildWalls b;; HouseBuilder.buildDoors b) w ∧
  Director.buildFullHouse d w =
    (HouseBuilder.buildWalls b;; HouseBuilder.buildDoors b;;
     HouseBuilder.buildWindows b) w ∧
  ∀ h ps, holds w b h ps →
    Director.buildMinimalHouse d w =
      Some ((), with_parts w h (ps ++ ["Walls"; "Doors"])) ∧
    Director.buildFullHouse d w =
      Some ((), with_parts w h (ps ++ ["Walls"; "Doors"; "Windows"])) ∧
    ∀ l,
      (do_calls b l w = Director.buildMinimalHouse d w ↔
       l = [Build Walls; Build Doors]) ∧
      (do_calls b l w = Director.buildFullHouse d w ↔
       l = [Build Walls; Build Doors; Build Windows]).
Proof.
  intros Hd.
  split; [by apply buildMinimalHouse_calls|].
  split; [by apply buildFullHouse_calls|].
  intros h ps Hh.
  pose proof (buildMinimalHouse_run _ _ _ _ _ Hd Hh) as Emin.
  pose proof (buildFullHouse_run _ _ _ _ _ Hd Hh) as Efull.
  split; [done|]. split; [done|].
  intros l. rewrite Emin, Efull. split; split.
  - apply (do_calls_unique _ _ _ _ _ [Walls; Doors] Hh).
  - intros ->. rewrite <- Emin, (buildMinimalHouse_calls _ _ _ Hd).
    simpl. unfold mbind, M_bind.
    destruct (HouseBuilder.buildWalls b w) as [[u w1]|]; [|done].
    by destruct (HouseBuilder.buildDoors b w1) as [[[] w2]|].
  - apply (do_calls_unique _ _ _ _ _ [Walls; Doors; Windows] Hh).
  - intros ->. rewrite <- Efull, (buildFullHouse_calls _ _ _ Hd).
    simpl. unfold mbind, M_bind.
    destruct (HouseBuilder.buildWalls b w) as [[u w1]|]; [|done].
    destruct (HouseBuilder.buildDoors b w1) as [[u1 w2]|]; [|done].
    by destruct (HouseBuilder.buildWindows b w2) as [[[] w3]|].
Qed.

(** C10: on a Director attached to a builder, whatever the state of the
    builder, [buildFullHouse] does what [buildMinimalHouse] followed by
    one call of [buildWindows] on the builder does. *)
Theorem full_is_minimal_then_windows w d b :
  attached w d b →
  Director.buildFullHouse d w =
    (Director.buildMinimalHouse d;; SimpleHouseBuilder.buildWindows b) w.
Proof.
  intros Hd. rewrite (buildFullHouse_calls _ _ _ Hd).
  unfold mbind at 3, M_bind. rewrite (buildMinimalHouse_calls _ _ _ Hd).
  unfold mbind, M_bind.
  destruct (HouseBuilder.buildWalls b w) as [[u w1]|]; [|done].
  destruct (HouseBuilder.buildDoors b w1) as [[u1 w2]|]; [|done].
  apply virtual_buildWindows.
Qed.
End DirectorClaims.

(** ** The claims on the two factories *)

Section FactoryClaims.
Context `{!Allocator}.

Lemma new_run o w :
  new o w = Some (alloc (dom (heap w)),
                  mkWorld (<[alloc (dom (heap w)) := o]> (heap w)) (cout w)).
Proof. done. Qed.

Lemma new_release (m : gmap loc Obj) o :
  delete (alloc (dom m)) (<[alloc (dom m) := o]> m) = m.
Proof. apply delete_insert_id, not_elem_of_dom, alloc_fresh. Qed.

Lemma planDelivery_run c w :
  planDelivery c w =
    Some ((), mkWorld (heap w)
                (cout w +:+ "[Factory Method] " +:+
                 match c with
                 | RoadLogistics => "Delivery by Truck"
                 | SeaLogistics => "Delivery by Ship"
                 end +:+ nl)).
Proof.
  unfold planDelivery, createTransport, deliver, release, print, load.
  destruct c; rewrite (bind_run _ _ _ _ _ (new_run _ _));
    unfold mbind, M_bind; simpl; rewrite lookup_insert_eq; simpl;
    rewrite lookup_insert_eq, new_release; by rewrite !append_assoc.
Qed.

Lemma showFurniture_run f w :
  showFurniture f w =
    Some ((), mkWorld (heap w)
                (cout w +:+ "[Abstract Factory] Created: " +:+
                 match f with
                 | VictorianFactory => "Victorian Chair"
                 | ModernFactory => "Modern Chair"
                 end +:+ nl)).
Proof.
  unfold showFurniture, createChair, type, release, print, load.
  destruct f; rewrite (bind_run _ _ _ _ _ (new_run _ _));
    unfold mbind, M_bind; simpl; rewrite lookup_insert_eq; simpl;
    rewrite lookup_insert_eq, new_release; by rewrite !append_assoc.
Qed.

(** C2: a creator makes one new product, whose description is that of
    its class, "Delivery by Truck" for [RoadLogistics] and "Delivery by
    Ship" for [SeaLogistics]; every one of [n] calls of [planDelivery]
    in a row writes that description after "[Factory Method] ", and
    leaves the objects as they were. *)
Theorem planDelivery_binding (c : Logistics) (n : nat) (w : World) :
  let d := match c with
           | RoadLogistics => "Delivery by Truck"
           | SeaLogistics => "Delivery by Ship"
           end in
  (∃ t w1, createTransport c w = Some (t, w1) ∧
           heap w !! t = None ∧
           size (heap w1) = S (size (heap w)) ∧
           deliver t w1 = Some (d, w1)) ∧
  times n (planDelivery c) w =
    Some (replicate n (),
          mkWorld (heap w)
            (cout w +:+ copies n ("[Factory Method] " +:+ d +:+ nl))).
Proof.
  intros d. split.
  - assert (heap w !! alloc (dom (heap w)) = None) as Hnew
      by apply not_elem_of_dom, alloc_fresh.
    destruct c; eexists _, _; (split; [apply new_run|]);
      (split; [done|]); (split; [by apply map_size_insert_None|]);
      unfold deliver, load, mbind, M_bind; simpl;
      by rewrite lookup_insert_eq.
  - apply times_output. intros w0. apply planDelivery_run.
Qed.

(** C3: every one of [n] calls of [createChair] in a row on a factory
    makes a chair whose [type] is that of the family of the factory,
    "Victorian Chair" for [VictorianFactory] and "Modern Chair" for
    [ModernFactory]; [showFurniture] writes that description. *)
Theorem createChair_family (f : FurnitureFactory) (n : nat) (w : World) :
  let d := match f with
           | VictorianFactory => "Victorian Chair"
           | ModernFactory => "Modern Chair"
           end in
  (∃ w', times n (c ← createChair f; type c) w = Some (replicate n d, w')) ∧
  times n (showFurniture f) w =
    Some (replicate n (),
          mkWorld (heap w)
            (cout w +:+
             copies n ("[Abstract Factory] Created: " +:+ d +:+ nl))).
Proof.
  intros d. split.
  - apply times_value. clear w. intros w.
    unfold createChair, type, load.
    destruct f; eexists; rewrite (bind_run _ _ _ _ _ (new_run _ _));
      unfold mbind, M_bind; simpl; by rewrite lookup_insert_eq.
  - apply times_output. intros w0. apply showFurniture_run.
Qed.
End FactoryClaims.

(** ** The claims on the driver's worlds *)

(** [main] returns 0, writes its six lines and leaves no object behind. *)
Example main_run :
  @main fresh_allocator empty_world = Some (0%Z, mkWorld ∅ main_output).
Proof. vm_compute. reflexivity. Qed.

(** The worlds of the driver are those that [main] goes through. *)
Example driver_worlds :
  @SimpleHouseBuilder.declare fresh_allocator empty_world
    = Some (1%positive, builder_world) ∧
  (d ← @Director.declare fresh_allocator; Director.setBuilder d 1%positive;;
   mret d) builder_world = Some (3%positive, site_world) ∧
  (Director.buildMinimalHouse 3%positive;;
   @SimpleHouseBuilder.getResult fresh_allocator 1%positive) site_world
    = Some (2%positive, minimal_world).
Proof. repeat split; vm_compute; reflexivity. Qed.

Lemma builder_parts_in_call_order_witness :
  (∃ r w',
     (do_steps 1%positive [Windows; Walls; Walls; Doors];;
      @SimpleHouseBuilder.getResult fresh_allocator 1%positive) builder_world
       = Some (r, w') ∧
     heap w' !! r = Some (OHouse ["Windows"; "Walls"; "Walls"; "Doors"])) ∧
  (∀ l1 s l2, [Windows; Walls; Walls; Doors] = l1 ++ s :: l2 →
     ∃ h w1 w2, do_steps 1%positive l1 builder_world = Some ((), w1) ∧
                holds w1 1%positive h (step_name <$> l1) ∧
                do_step 1%positive s w1 = Some ((), w2) ∧
                holds w2 1%positive h ((step_name <$> l1) ++ [step_name s])).
Proof.
  apply (@builder_parts_in_call_order fresh_allocator 1%positive builder_world
           [Windows; Walls; Walls; Doors]).
  apply (@reset_declared fresh_allocator _ _ empty_world).
  vm_compute. reflexivity.
Defined.

Lemma getResult_resets_builder_witness :
  ∃ h' w1,
    @SimpleHouseBuilder.getResult fresh_allocator 1%positive minimal_world
      = Some (4%positive, w1) ∧
    (h' ∉ dom (heap minimal_world)) ∧ h' ≠ 4%positive ∧
    holds w1 1%positive h' [] ∧
    heap w1 !! 4%positive = Some (OHouse []) ∧
    ∀ l, ∃ w2, do_steps 1%positive l w1 = Some ((), w2) ∧
               holds w2 1%positive h' (step_name <$> l) ∧
               heap w2 !! 4%positive = Some (OHouse []).
Proof.
  apply (@getResult_resets_builder fresh_allocator minimal_world 1%positive
           4%positive []).
  split; vm_compute; reflexivity.
Defined.

Lemma buildWalls_twice_adds_twice_witness :
  ∃ w', (SimpleHouseBuilder.buildWalls 1%positive;;
         SimpleHouseBuilder.buildWalls 1%positive;;
         @SimpleHouseBuilder.getResult fresh_allocator 1%positive)
          builder_world = Some (2%positive, w') ∧
        heap w' !! 2%positive = Some (OHouse ["Walls"; "Walls"]).
Proof.
  apply (@buildWalls_twice_adds_twice fresh_allocator builder_world 1%positive
           2%positive []).
  split; vm_compute; reflexivity.
Defined.

Lemma minimal_house_parts_witness :
  ∃ w', (Director.buildMinimalHouse 3%positive;;
         @SimpleHouseBuilder.getResult fresh_allocator 1%positive) site_world
          = Some (2%positive, w') ∧
        heap w' !! 2%positive = Some (OHouse ["Walls"; "Doors"]).
Proof.
  apply (@minimal_house_parts fresh_allocator site_world 3%positive 1%positive
           2%positive).
  - vm_compute. reflexivity.
  - split; vm_compute; reflexivity.
Defined.

Lemma full_house_after_minimal_witness :
  ∃ h2 w2, (Director.buildFullHouse 3%positive;;
            @SimpleHouseBuilder.getResult fresh_allocator 1%positive)
             minimal_world = Some (h2, w2) ∧
           h2 ≠ 2%positive ∧
           heap w2 !! h2 = Some (OHouse ["Walls"; "Doors"; "Windows"]) ∧
           heap w2 !! 2%positive = Some (OHouse ["Walls"; "Doors"]).
Proof.
  apply (@full_house_after_minimal fresh_allocator site_world 3%positive
           1%positive 2%positive 2%positive minimal_world).
  - vm_compute. reflexivity.
  - split; vm_compute; reflexivity.
  - vm_compute. reflexivity.
Defined.

Lemma director_call_sequences_witness :
  Director.buildMinimalHouse 3%positive site_world =
    (HouseBuilder.buildWalls 1%positive;;
     HouseBuilder.buildDoors 1%positive) site_world ∧
  Director.buildFullHouse 3%positive site_world =
    (HouseBuilder.buildWalls 1%positive;; HouseBuilder.buildDoors 1%positive;;
     HouseBuilder.buildWindows 1%positive) site_world ∧
  ∀ h ps, holds site_world 1%positive h ps →
    Director.buildMinimalHouse 3%positive site_world =
      Some ((), with_parts site_world h (ps ++ ["Walls"; "Doors"])) ∧
    Director.buildFullHouse 3%positive site_world =
      Some ((), with_parts site_world h (ps ++ ["Walls"; "Doors"; "Windows"])) ∧
    ∀ l,
      (@do_calls fresh_allocator 1%positive l site_world =
         Director.buildMinimalHouse 3%positive site_world ↔
       l = [Build Walls; Build Doors]) ∧
      (@do_calls fresh_allocator 1%positive l site_world =
         Director.buildFullHouse 3%positive site_world ↔
       l = [Build Walls; Build Doors; Build Windows]).
Proof.
  apply (@director_call_sequences fresh_allocator site_world 3%positive
           1%positive).
  vm_compute. reflexivity.
Defined.

Lemma full_is_minimal_then_windows_witness :
  Director.buildFullHouse 3%positive minimal_world =
    (Director.buildMinimalHouse 3%positive;;
     SimpleHouseBuilder.buildWindows 1%positive) minimal_world.
Proof.
  apply (full_is_minimal_then_windows minimal_world 3%positive 1%positive).
  vm_compute. reflexivity.
Defined.

(** ** What a House shows *)

Lemma bind_assoc_run {A B C} (m : M A) (f : A → M B) (g : B → M C) w :
  ((m ≫= f) ≫= g) w = (m ≫= λ a, f a ≫= g) w.
Proof. unfold mbind, M_bind. by destruct (m w) as [[a w']|]. Qed.

Lemma show_parts_run ps : ∀ w,
  House.show_parts ps w = Some ((), mkWorld (heap w) (cout w +:+ shown ps)).
Proof.
  induction ps as [|p ps IH]; intros w; simpl.
  - unfold_bind. rewrite append_empty_r. by destruct w.
  - unfold mbind, M_bind, print at 1 2. rewrite IH. simpl.
    by rewrite !append_assoc.
Qed.

(** X1: [show] on a House writes "[Builder] House with: ", then every part
    followed by a space, then a line end; it changes no object. *)
Theorem show_writes_parts w h ps :
  heap w !! h = Some (OHouse ps) →
  House.show h w =
    Some ((), mkWorld (heap w)
                (cout w +:+ "[Builder] House with: " +:+ shown ps +:+ nl)).
Proof.
  intros E. unfold House.show, House.parts, load, print.
  unfold mbind, M_bind. simpl. rewrite E. simpl.
  rewrite show_parts_run. simpl. by rewrite !append_assoc.
Qed.

Section ShowClaims.
Context `{!Allocator}.

(** X2: after a builder is declared or [getResult] is called on it, the
    House built by any sequence of steps shows the names of the steps in
    call order. *)
Theorem built_house_shows_steps b w l :
  reset b w →
  ∃ w', (r ← build b l; House.show r) w = Some ((), w') ∧
        cout w' = cout w +:+ "[Builder] House with: " +:+
                  shown (step_name <$> l) +:+ nl.
Proof.
  intros Hr. destruct (reset_holds _ _ Hr) as [h Hh].
  pose proof (holds_with_parts _ _ _ _ (step_name <$> l) Hh) as Hh'.
  pose proof (do_steps_run _ _ _ _ l Hh) as E. rewrite app_nil_l in E.
  unfold build. rewrite bind_assoc_run, (bind_run _ _ _ _ _ E).
  rewrite (bind_run _ _ _ _ _ (getResult_run _ _ _ (proj1 Hh'))).
  eexists. split.
  - apply show_writes_parts.
    apply extracted_frame; [symmetry; by eapply holds_ne | apply Hh'].
  - done.
Qed.
End ShowClaims.

(** ** The builder and the objects around it *)

(** Two stores built by inserting and deleting are equal when they agree
    at every address. *)
Ltac store_eq :=
  apply map_eq; intros ?;
  repeat (rewrite lookup_insert || rewrite lookup_delete);
  repeat case_decide; subst; simplify_eq; try done; try congruence.

Lemma building_holds m w b h ps :
  building m (heap w) b h ps → holds w b h ps.
Proof.
  intros (E & _ & _ & Hne). split; rewrite E.
  - by rewrite lookup_insert_eq.
  - by rewrite lookup_insert_ne, lookup_insert_eq.
Qed.

Lemma building_with_parts m w b h ps ps' :
  building m (heap w) b h ps →
  building m (heap (with_parts w h ps')) b h ps'.
Proof.
  intros (E & Hb & Hh & Hne). repeat split; try done.
  unfold with_parts; simpl. rewrite E. store_eq.
Qed.

(** An object of [m] is an object of the store, as it is in [m]. *)
Lemma building_base m hp b h ps p o :
  building m hp b h ps → m !! p = Some o → hp !! p = Some o.
Proof.
  intros (-> & Hb & Hh & Hne) Ep.
  rewrite !lookup_insert. repeat case_decide; subst; congruence.
Qed.

(** An address that is free in the store is free in [m]. *)
Lemma building_free m hp b h ps p :
  building m hp b h ps → hp !! p = None → m !! p = None.
Proof.
  intros Hm Ep. destruct (m !! p) as [o|] eqn:E; [|done].
  by rewrite (building_base _ _ _ _ _ _ _ Hm E) in Ep.
Qed.

Section BuildingRuns.
Context `{!Allocator}.

Lemma alloc_free (m : gmap loc Obj) : m !! alloc (dom m) = None.
Proof. apply not_elem_of_dom, alloc_fresh. Qed.

Lemma declare_building w :
  ∃ b h w', SimpleHouseBuilder.declare w = Some (b, w') ∧
            building (heap w) (heap w') b h [] ∧ cout w' = cout w.
Proof.
  unfold SimpleHouseBuilder.declare, SimpleHouseBuilder.construct.
  unfold new, store, mbind, M_bind, mret, M_ret; simpl.
  set (b := alloc (dom (heap w))).
  pose proof (alloc_free (heap w)) as Hb. fold b in Hb.
  pose proof (alloc_free (<[b := OSimpleHouseBuilder None]> (heap w))) as Hh.
  set (h := alloc (dom (<[b := OSimpleHouseBuilder None]> (heap w)))) in *.
  assert (h ≠ b) as Hne by (intros E; by rewrite E, lookup_insert_eq in Hh).
  rewrite lookup_insert_ne in Hh by done.
  rewrite lookup_insert_ne, lookup_insert_eq by done.
  eexists b, h, _. split; [done|]. split; [|done].
  repeat split; simpl; try done. store_eq.
Qed.

(** [getResult] hands the House over: it is now one of the objects
    around the builder. *)
Lemma getResult_building m w b h ps :
  building m (heap w) b h ps →
  building (<[h := OHouse ps]> m) (heap (extracted w b)) b
    (alloc (dom (heap w))) [].
Proof.
  intros Hm. pose proof (alloc_free (heap w)) as Hnew.
  pose proof (building_free _ _ _ _ _ _ Hm Hnew) as Hnew'.
  destruct Hm as (E & Hb & Hh & Hne).
  set (h' := alloc (dom (heap w))) in *.
  assert (h' ≠ b) as Hb' by (intros ->; by rewrite E, lookup_insert_eq in Hnew).
  assert (h' ≠ h) as Hh'.
  { intros ->. by rewrite E, lookup_insert_ne, lookup_insert_eq in Hnew. }
  repeat split.
  - unfold extracted; simpl. fold h'. rewrite E. store_eq.
  - by rewrite lookup_insert_ne.
  - by rewrite lookup_insert_ne.
  - done.
Qed.

(** The caller deletes one of the objects around the builder. *)
Lemma release_around m w b h ps r o :
  building (<[r := o]> m) (heap w) b h ps → m !! r = None →
  release r w = Some ((), mkWorld (delete r (heap w)) (cout w)) ∧
  building m (delete r (heap w)) b h ps.
Proof.
  intros Hm Hr.
  pose proof (building_base _ _ _ _ _ r o Hm (lookup_insert_eq _ _ _)) as Er.
  destruct Hm as (E & Hb & Hh & Hne).
  assert (r ≠ b) as Hrb by (intros ->; by rewrite lookup_insert_eq in Hb).
  assert (r ≠ h) as Hrh by (intros ->; by rewrite lookup_insert_eq in Hh).
  rewrite lookup_insert_ne in Hb, Hh by done.
  split; [unfold release; by rewrite Er|].
  repeat split; try done. rewrite E. store_eq.
Qed.

(** The end of the builder: its destructor, then its storage. *)
Lemma destroy_building m w b h ps :
  building m (heap w) b h ps →
  (SimpleHouseBuilder.destroy b;; release b) w = Some ((), mkWorld m (cout w)).
Proof.
  intros Hm. pose proof (building_holds _ _ _ _ _ Hm) as Hh.
  destruct Hm as (E & Hb & Hfree & Hne). destruct Hh as [Eb Eh].
  unfold SimpleHouseBuilder.destroy, SimpleHouseBuilder.house, load, release.
  unfold mbind, M_bind. rewrite Eb; simpl. rewrite Eh; simpl.
  rewrite lookup_delete_ne, Eb by done. do 2 f_equal. f_equal.
  rewrite E. store_eq.
Qed.
End BuildingRuns.

(** ** The life of a builder *)

Section ScopeClaims.
Context `{!Allocator}.

Lemma build_run w b h ps l :
  holds w b h ps →
  build b l w =
    Some (h, extracted (with_parts w h (ps ++ (step_name <$> l))) b).
Proof.
  intros Hh. unfold build.
  rewrite (bind_run _ _ _ _ _ (do_steps_run _ _ _ _ l Hh)).
  apply getResult_run. by eapply holds_with_parts.
Qed.

Lemma build_drop_run m w b h ps l :
  building m (heap w) b h ps →
  ∃ h' w', (r ← build b l; release r) w = Some ((), w') ∧
           building m (heap w') b h' [] ∧ cout w' = cout w.
Proof.
  intros Hm. pose proof (building_holds _ _ _ _ _ Hm) as Hh.
  rewrite (bind_run _ _ _ _ _ (build_run _ _ _ _ l Hh)).
  pose proof (building_with_parts _ _ _ _ _ (ps ++ (step_name <$> l)) Hm)
    as Hm1.
  pose proof (getResult_building _ _ _ _ _ Hm1) as Hm2.
  destruct (release_around _ _ _ _ _ _ _ Hm2) as [E Hm3]; [apply Hm|].
  eexists _, _. split; [apply E|]. by split.
Qed.

Lemma build_and_drop_run m b ls : ∀ w h ps,
  building m (heap w) b h ps →
  ∃ h' ps' w', build_and_drop b ls w = Some ((), w') ∧
               building m (heap w') b h' ps' ∧ cout w' = cout w.
Proof.
  induction ls as [|l ls IH]; intros w h ps Hm; simpl.
  - by exists h, ps, w.
  - destruct (build_drop_run _ _ _ _ _ l Hm) as (h1 & w1 & E1 & Hm1 & Ec1).
    destruct (IH _ _ _ Hm1) as (h2 & ps2 & w2 & E2 & Hm2 & Ec2).
    exists h2, ps2, w2. split; [|split; [done | congruence]].
    rewrite <- E2. revert E1. unfold mbind, M_bind.
    destruct (build b l w) as [[r w0]|]; [|done].
    by destruct (release r w0) as [[[] w0']|]; intros; simplify_eq.
Qed.

(** X3: when the builder's scope ends after [getResult], the destructor
    deletes the House the builder holds then, not the one it returned: the
    returned House is as it was, and only the builder is gone. *)
Theorem destructor_keeps_returned_house w b h ps :
  holds w b h ps →
  ∃ w', (r ← SimpleHouseBuilder.getResult b;
         SimpleHouseBuilder.destroy b;; release b;; mret r) w
          = Some (h, w') ∧
        heap w' = delete b (heap w) ∧
        heap w' !! h = Some (OHouse ps).
Proof.
  intros Hh. pose proof Hh as [Eb Eh].
  pose proof (holds_ne _ _ _ _ Hh) as Hne.
  pose proof (alloc_free (heap w)) as Hnew.
  rewrite (bind_run _ _ _ _ _ (getResult_run _ _ _ Eb)).
  unfold SimpleHouseBuilder.destroy, SimpleHouseBuilder.house, load, release.
  unfold extracted, mbind, M_bind, mret, M_ret; simpl.
  set (h' := alloc (dom (heap w))) in *.
  assert (h' ≠ b) as Hb' by (intros E; by rewrite E, Eb in Hnew).
  rewrite lookup_insert_eq; simpl.
  rewrite lookup_insert_ne, lookup_insert_eq by done; simpl.
  rewrite lookup_delete_ne, lookup_insert_eq by done.
  assert (delete b (delete h'
            (<[b:=OSimpleHouseBuilder (Some h')]>
               (<[h':=OHouse []]> (heap w)))) = delete b (heap w)) as E.
  { store_eq. }
  eexists. split; [done|]. simpl. split; [done|].
  by rewrite E, lookup_delete_ne.
Qed.

(** X4: a local builder leaves nothing behind and deletes nothing twice:
    from its declaration to the end of its scope, whatever products are
    built and deleted by the caller in between, the program returns and
    the objects and the output are what they were before. *)
Theorem builder_scope_restores_world ls w :
  builder_scope ls w = Some ((), w).
Proof.
  unfold builder_scope.
  destruct (declare_building w) as (b & h & w1 & E1 & Hm1 & Ec1).
  rewrite (bind_run _ _ _ _ _ E1).
  destruct (build_and_drop_run _ _ ls _ _ _ Hm1)
    as (h2 & ps2 & w2 & E2 & Hm2 & Ec2).
  rewrite (bind_run _ _ _ _ _ E2).
  rewrite (destroy_building _ _ _ _ _ Hm2).
  destruct w as [m c]. simpl in *. by rewrite Ec2, Ec1.
Qed.
End ScopeClaims.

(** ** Several products of one builder *)

Section ProductsClaims.
Context `{!Allocator}.

(** The Houses that [build_all] returns are the House held at the start
    and Houses at addresses that were free then; the other objects are
    left as they were. *)
Lemma build_all_run b ls : ∀ w h,
  holds w b h [] →
  ∃ rs w', build_all b ls w = Some (rs, w') ∧
           NoDup rs ∧
           Forall2 (λ r l, heap w' !! r = Some (OHouse (step_name <$> l)))
                   rs ls ∧
           (∀ r, r ∈ rs → r = h ∨ heap w !! r = None) ∧
           (∀ p o, p ≠ b → p ≠ h → heap w !! p = Some o →
                   heap w' !! p = Some o).
Proof.
  induction ls as [|l ls IH]; intros w h Hh; simpl.
  - exists [], w. split; [done|]. split; [constructor|].
    split; [constructor|]. split; [by intros r ?%elem_of_nil | done].
  - pose proof (holds_ne _ _ _ _ Hh) as Hne.
    pose proof (build_run _ _ _ _ l Hh) as E1. rewrite app_nil_l in E1.
    pose proof (holds_with_parts _ _ _ _ (step_name <$> l) Hh) as Hh1.
    set (w1 := with_parts w h (step_name <$> l)) in *.
    pose proof (extracted_holds _ _ _ (proj1 Hh1)) as Hh2.
    pose proof (alloc_free (heap w1)) as Hnew.
    set (h' := alloc (dom (heap w1))) in *.
    assert (heap (extracted w1 b) !! h = Some (OHouse (step_name <$> l)))
      as Eh2 by (apply extracted_frame; [done | apply Hh1]).
    assert (h' ≠ h) as Hh' by (intros E; by rewrite E, (proj2 Hh1) in Hnew).
    destruct (IH _ _ Hh2) as (rs & w' & E2 & Hnd & Hall & Hrs & Hframe).
    exists (h :: rs), w'.
    rewrite (bind_run _ _ _ _ _ E1), (bind_run _ _ _ _ _ E2).
    split; [done|]. split; [|split; [|split]].
    + constructor; [|done]. intros Hin.
      destruct (Hrs _ Hin) as [E|E]; [by symmetry in E | congruence].
    + constructor; [|done]. by apply Hframe.
    + intros r [->|Hr]%elem_of_cons; [by left|]. right.
      assert (heap w1 !! r = None) as Hr1.
      { destruct (Hrs _ Hr) as [E|Hr2]; [by rewrite E|].
        destruct (heap w1 !! r) as [o|] eqn:Er; [|done].
        destruct (decide (r = b)) as [->|Hrb];
          [by rewrite (proj1 Hh2) in Hr2|].
        by rewrite (extracted_frame _ _ _ _ Hrb Er) in Hr2. }
      destruct (decide (r = h)) as [->|Hrh];
        [by rewrite (proj2 Hh1) in Hr1|].
      by rewrite <- (with_parts_frame w h (step_name <$> l)).
    + intros p o Hpb Hph Ep. apply Hframe; [done | |].
      * intros ->. rewrite <- (with_parts_frame w h (step_name <$> l)) in Ep
          by done. fold w1 in Ep. congruence.
      * apply extracted_frame; [done|].
        unfold w1. by rewrite with_parts_frame.
Qed.

(** X5: a builder can be used for any number of products: each
    [getResult] returns another House, whose parts are the names of the
    steps of its own build in call order, and the Houses returned earlier
    and the caller's other objects are left as they were. *)
Theorem builder_reuse b ls w h :
  holds w b h [] →
  ∃ rs w', build_all b ls w = Some (rs, w') ∧
           NoDup rs ∧
           Forall2 (λ r l, heap w' !! r = Some (OHouse (step_name <$> l)))
                   rs ls ∧
           (∀ p o, p ≠ b → p ≠ h → heap w !! p = Some o →
                   heap w' !! p = Some o).
Proof.
  intros Hh.
  destruct (build_all_run b ls w h Hh) as (rs & w' & E & Hnd & Hall & _ & Hf).
  by exists rs, w'.
Qed.
End ProductsClaims.

(** ** Builders side by side *)


Section BesideClaims.
Context `{!Allocator}.


End BesideClaims.

(** ** The Director, again *)

Lemma attached_with_parts w d b h ps ps' :
  attached w d b → heap w !! h = Some (OHouse ps) →
  attached (with_parts w h ps') d b.
Proof.
  unfold attached. intros Ed Eh. rewrite with_parts_frame; [done|].
  intros ->. congruence.
Qed.

Lemma do_plan_run w d b h ps p :
  attached w d b → holds w b h ps →
  do_plan d p w = Some ((), with_parts w h (ps ++ plan_parts p)).
Proof.
  intros Hd Hh. destruct p; simpl;
    [by eapply buildMinimalHouse_run | by eapply buildFullHouse_run].
Qed.

(** X7: the calls of a Director add up: after any sequence of
    [buildMinimalHouse] and [buildFullHouse] calls with no [getResult] in
    between, the House the builder holds has the parts of all the calls,
    one call after the other; the Director starts no new House. *)
Theorem director_calls_accumulate l : ∀ w d b h ps,
  attached w d b → holds w b h ps →
  do_plans d l w =
    Some ((), with_parts w h (ps ++ concat (plan_parts <$> l))).
Proof.
  induction l as [|p l IH]; intros w d b h ps Hd Hh; simpl.
  - rewrite app_nil_r, with_parts_same; [done | apply Hh].
  - rewrite (bind_run _ _ _ _ _ (do_plan_run _ _ _ _ _ p Hd Hh)).
    rewrite (IH _ d b h (ps ++ plan_parts p)).
    + by rewrite with_parts_twice, <- app_assoc.
    + eapply attached_with_parts; [done | apply Hh].
    + by eapply holds_with_parts.
Qed.

(** X8: [setBuilder] on a Director, attached or not, attaches it to the
    given builder: the next call of the Director adds its parts to the
    House of that builder, and every other object, the builder it was
    attached to before among them, is left as it was. *)
Theorem setBuilder_retargets w d old b h ps p :
  heap w !! d = Some (ODirector old) → holds w b h ps →
  ∃ w', (Director.setBuilder d b;; do_plan d p) w = Some ((), w') ∧
        attached w' d b ∧
        holds w' b h (ps ++ plan_parts p) ∧
        ∀ q, q ≠ d → q ≠ h → heap w' !! q = heap w !! q.
Proof.
  intros Ed Hh. pose proof Hh as [Eb Eh].
  assert (d ≠ b) as Hdb by congruence. assert (d ≠ h) as Hdh by congruence.
  set (w1 := mkWorld (<[d := ODirector (Some b)]> (heap w)) (cout w)).
  assert (Director.setBuilder d b w = Some ((), w1)) as E1.
  { unfold Director.setBuilder, load, store, mbind, M_bind.
    rewrite Ed; simpl. by rewrite Ed. }
  assert (attached w1 d b) as Hd1 by (unfold attached; apply lookup_insert_eq).
  assert (holds w1 b h ps) as Hh1.
  { split; simpl; by rewrite lookup_insert_ne. }
  rewrite (bind_run _ _ _ _ _ E1), (do_plan_run _ _ _ _ _ p Hd1 Hh1).
  eexists. split; [done|]. split; [|split].
  - eapply attached_with_parts; [done | apply Hh1].
  - by eapply holds_with_parts.
  - intros q Hqd Hqh. rewrite with_parts_frame by done.
    simpl. by rewrite lookup_insert_ne.
Qed.

(** X9: a Director that was declared but never given a builder has no
    builder to call: both of its operations are undefined. *)
Theorem unattached_director_undefined `{!Allocator} w p :
  (d ← Director.declare; do_plan d p) w = None.
Proof.
  unfold Director.declare. rewrite (bind_run _ _ _ _ _ (new_run _ _)).
  destruct p; simpl;
    unfold Director.buildMinimalHouse, Director.buildFullHouse,
      Director.builder, load, mbind, M_bind; simpl;
    by rewrite lookup_insert_eq.
Qed.

(** ** Products, one per request *)

Section FreshClaims.
Context `{!Allocator}.

(** X10: every call of [createTransport] makes a new object: two calls in
    a row return two different transports, at addresses that held no
    object before, each with the description of its own creator, and the
    objects that were there are left as they were. *)
Theorem transports_are_new c1 c2 w :
  ∃ t1 t2 w',
    (t1 ← createTransport c1; t2 ← createTransport c2; mret (t1, t2)) w
      = Some ((t1, t2), w') ∧
    t1 ≠ t2 ∧ heap w !! t1 = None ∧ heap w !! t2 = None ∧
    deliver t1 w' = Some (match c1 with
                          | RoadLogistics => "Delivery by Truck"
                          | SeaLogistics => "Delivery by Ship"
                          end, w') ∧
    deliver t2 w' = Some (match c2 with
                          | RoadLogistics => "Delivery by Truck"
                          | SeaLogistics => "Delivery by Ship"
                          end, w') ∧
    ∀ p o, heap w !! p = Some o → heap w' !! p = Some o.
Proof.
  set (o1 := OTransport match c1 with
                        | RoadLogistics => Truck | SeaLogistics => Ship
                        end).
  set (o2 := OTransport match c2 with
                        | RoadLogistics => Truck | SeaLogistics => Ship
                        end).
  assert (createTransport c1 = new o1) as -> by (by destruct c1).
  assert (createTransport c2 = new o2) as -> by (by destruct c2).
  pose proof (alloc_free (heap w)) as F1.
  pose proof (alloc_free (<[alloc (dom (heap w)) := o1]> (heap w))) as F2.
  set (t1 := alloc (dom (heap w))) in *.
  set (t2 := alloc (dom (<[t1 := o1]> (heap w)))) in *.
  assert (t2 ≠ t1) as Hne by (intros E; by rewrite E, lookup_insert_eq in F2).
  rewrite lookup_insert_ne in F2 by done.
  exists t1, t2. eexists. split; [reflexivity|]. simpl.
  split; [done|]. split; [done|]. split; [done|].
  unfold deliver, load, mbind, M_bind; simpl.
  rewrite lookup_insert_eq, lookup_insert_ne, lookup_insert_eq by done.
  split; [by destruct c1|]. split; [by destruct c2|].
  intros p o Ep. assert (t1 ≠ p) by congruence. assert (t2 ≠ p) by congruence.
  by rewrite !lookup_insert_ne.
Qed.

(** X11: every call of [createChair] makes a new object: two calls in a
    row return two different chairs, at addresses that held no object
    before, each of the family of its own factory, and the objects that
    were there are left as they were. *)
Theorem chairs_are_new f1 f2 w :
  ∃ c1 c2 w',
    (c1 ← createChair f1; c2 ← createChair f2; mret (c1, c2)) w
      = Some ((c1, c2), w') ∧
    c1 ≠ c2 ∧ heap w !! c1 = None ∧ heap w !! c2 = None ∧
    type c1 w' = Some (match f1 with
                       | VictorianFactory => "Victorian Chair"
                       | ModernFactory => "Modern Chair"
                       end, w') ∧
    type c2 w' = Some (match f2 with
                       | VictorianFactory => "Victorian Chair"
                       | ModernFactory => "Modern Chair"
                       end, w') ∧
    ∀ p o, heap w !! p = Some o → heap w' !! p = Some o.
Proof.
  set (o1 := OChair match f1 with
                    | VictorianFactory => VictorianChair
                    | ModernFactory => ModernChair
                    end).
  set (o2 := OChair match f2 with
                    | VictorianFactory => VictorianChair
                    | ModernFactory => ModernChair
                    end).
  assert (createChair f1 = new o1) as -> by (by destruct f1).
  assert (createChair f2 = new o2) as -> by (by destruct f2).
  pose proof (alloc_free (heap w)) as F1.
  pose proof (alloc_free (<[alloc (dom (heap w)) := o1]> (heap w))) as F2.
  set (c1 := alloc (dom (heap w))) in *.
  set (c2 := alloc (dom (<[c1 := o1]> (heap w)))) in *.
  assert (c2 ≠ c1) as Hne by (intros E; by rewrite E, lookup_insert_eq in F2).
  rewrite lookup_insert_ne in F2 by done.
  exists c1, c2. eexists. split; [reflexivity|]. simpl.
  split; [done|]. split; [done|]. split; [done|].
  unfold type, load, mbind, M_bind; simpl.
  rewrite lookup_insert_eq, lookup_insert_ne, lookup_insert_eq by done.
  split; [by destruct f1|]. split; [by destruct f2|].
  intros p o Ep. assert (c1 ≠ p) by congruence. assert (c2 ≠ p) by congruence.
  by rewrite !lookup_insert_ne.
Qed.
End FreshClaims.

(** ** The driver, wherever the storage is taken *)

Section MainClaims.
Context `{!Allocator}.

(** A new object beside the builder. *)
Lemma new_around m w b h ps o :
  building m (heap w) b h ps →
  building (<[alloc (dom (heap w)) := o]> m)
    (<[alloc (dom (heap w)) := o]> (heap w)) b h ps ∧
  m !! alloc (dom (heap w)) = None.
Proof.
  intros Hm. pose proof (alloc_free (heap w)) as Hnew.
  pose proof (building_free _ _ _ _ _ _ Hm Hnew) as Hnew'.
  pose proof (building_holds _ _ _ _ _ Hm) as [Eb Eh].
  destruct Hm as (E & Hb & Hh & Hne).
  set (p := alloc (dom (heap w))) in *.
  assert (p ≠ b) by congruence. assert (p ≠ h) by congruence.
  split; [|done]. repeat split; try done.
  - rewrite E. store_eq.
  - by rewrite lookup_insert_ne.
  - by rewrite lookup_insert_ne.
Qed.

(** A write to an object beside the builder. *)
Lemma store_around m hp b h ps d o o' :
  building (<[d := o]> m) hp b h ps →
  building (<[d := o']> m) (<[d := o']> hp) b h ps.
Proof.
  intros (E & Hb & Hh & Hne).
  assert (d ≠ b) by (intros ->; by rewrite lookup_insert_eq in Hb).
  assert (d ≠ h) by (intros ->; by rewrite lookup_insert_eq in Hh).
  rewrite lookup_insert_ne in Hb, Hh by done.
  repeat split; try done.
  - rewrite E. store_eq.
  - by rewrite lookup_insert_ne.
  - by rewrite lookup_insert_ne.
Qed.

Lemma bind_assoc_inv {A B C} (m : M A) (f : A → M B) (g : B → M C) w :
  (m ≫= λ a, f a ≫= g) w = ((m ≫= f) ≫= g) w.
Proof. symmetry. apply bind_assoc_run. Qed.

(** X12: whatever the objects and the output before it, and wherever the
    storage is taken, [main] returns 0, adds its six lines to the output,
    and leaves the objects as they were: every object it made is deleted,
    once. *)
Theorem main_returns w :
  main w = Some (0%Z, mkWorld (heap w) (cout w +:+ main_output)).
Proof.
  unfold main.
  rewrite (bind_run _ _ _ _ _ (planDelivery_run RoadLogistics _)).
  rewrite (bind_run _ _ _ _ _ (planDelivery_run SeaLogistics _)).
  rewrite (bind_run _ _ _ _ _ (showFurniture_run VictorianFactory _)).
  rewrite (bind_run _ _ _ _ _ (showFurniture_run ModernFactory _)).
  cbn [heap cout].
  match goal with |- context [mkWorld (heap w) ?c] => set (c4 := c) end.
  destruct (declare_building (mkWorld (heap w) c4))
    as (b & h & w5 & E5 & Hm5 & Ec5).
  rewrite (bind_run _ _ _ _ _ E5). cbn [heap cout] in *.
  (* Director director; director.setBuilder(&builder); *)
  unfold Director.declare. rewrite (bind_run _ _ _ _ _ (new_run _ _)).
  destruct (new_around _ _ _ _ _ (ODirector None) Hm5) as [Hm6 Hd].
  set (d := alloc (dom (heap w5))) in *.
  apply (store_around _ _ _ _ _ _ _ (ODirector (Some b))) in Hm6.
  rewrite insert_insert_eq in Hm6.
  set (m7 := <[d := ODirector (Some b)]> (heap w)) in *.
  set (w7 := mkWorld (<[d := ODirector (Some b)]> (heap w5)) (cout w5)).
  assert (Director.setBuilder d b
            (mkWorld (<[d := ODirector None]> (heap w5)) (cout w5))
          = Some ((), w7)) as E7.
  { unfold Director.setBuilder, load, store, mbind, M_bind; simpl.
    rewrite lookup_insert_eq; simpl. rewrite lookup_insert_eq.
    unfold w7. by rewrite insert_insert_eq. }
  rewrite (bind_run _ _ _ _ _ E7).
  change (building m7 (heap w7) b h []) in Hm6.
  assert (∀ hp b' h' ps', building m7 hp b' h' ps' →
            hp !! d = Some (ODirector (Some b))) as Hatt.
  { intros hp b' h' ps' Hm. eapply building_base; [done|].
    apply lookup_insert_eq. }
  (* director.buildMinimalHouse(); h1 = builder.getResult(); h1->show(); *)
  rewrite (bind_run _ _ _ _ _
             (buildMinimalHouse_run _ _ _ _ _ (Hatt _ _ _ _ Hm6)
                (building_holds _ _ _ _ _ Hm6))).
  rewrite app_nil_l.
  apply (building_with_parts _ _ _ _ _ ["Walls"; "Doors"]) in Hm6.
  set (w8 := with_parts w7 h ["Walls"; "Doors"]) in *.
  rewrite (bind_run _ _ _ _ _
             (getResult_run _ _ _ (proj1 (building_holds _ _ _ _ _ Hm6)))).
  pose proof (getResult_building _ _ _ _ _ Hm6) as Hm9.
  set (h' := alloc (dom (heap w8))) in *.
  set (m9 := <[h := OHouse ["Walls"; "Doors"]]> m7) in *.
  set (w9 := extracted w8 b) in *.
  assert (heap w9 !! h = Some (OHouse ["Walls"; "Doors"])) as Eh9.
  { eapply building_base; [done|]. apply lookup_insert_eq. }
  rewrite (bind_run _ _ _ _ _ (show_writes_parts _ _ _ Eh9)).
  (* director.buildFullHouse(); h2 = builder.getResult(); h2->show(); *)
  match goal with |- context [mkWorld (heap w9) ?c] => set (c10 := c) end.
  set (w10 := mkWorld (heap w9) c10).
  change (building m9 (heap w10) b h' []) in Hm9.
  assert (m7 !! h = None) as Hh7 by apply Hm6.
  assert (d ≠ h) as Hdh.
  { intros E. rewrite <- E in Hh7. unfold m7 in Hh7.
    by rewrite lookup_insert_eq in Hh7. }
  assert (attached w10 d b) as Hd10.
  { eapply (building_base _ _ _ _ _ _ _ Hm9). unfold m9.
    rewrite lookup_insert_ne by done. apply lookup_insert_eq. }
  rewrite (bind_run _ _ _ _ _
             (buildFullHouse_run _ _ _ _ _ Hd10
                (building_holds _ _ _ _ _ Hm9))).
  rewrite app_nil_l.
  assert (m9 !! h' = None) as Hh9 by apply Hm9.
  apply (building_with_parts _ _ _ _ _ ["Walls"; "Doors"; "Windows"]) in Hm9.
  set (w11 := with_parts w10 h' ["Walls"; "Doors"; "Windows"]) in *.
  rewrite (bind_run _ _ _ _ _
             (getResult_run _ _ _ (proj1 (building_holds _ _ _ _ _ Hm9)))).
  pose proof (getResult_building _ _ _ _ _ Hm9) as Hm12.
  set (h'' := alloc (dom (heap w11))) in *.
  set (w12 := extracted w11 b) in *.
  assert (heap w12 !! h' = Some (OHouse ["Walls"; "Doors"; "Windows"]))
    as Eh12.
  { eapply building_base; [done|]. apply lookup_insert_eq. }
  rewrite (bind_run _ _ _ _ _ (show_writes_parts _ _ _ Eh12)).
  match goal with |- context [mkWorld (heap w12) ?c] => set (c13 := c) end.
  set (w13 := mkWorld (heap w12) c13).
  change (building (<[h' := OHouse ["Walls"; "Doors"; "Windows"]]> m9)
            (heap w13) b h'' []) in Hm12.
  (* the end of the scope *)
  destruct (release_around _ _ _ _ _ _ _ Hm12 Hh9) as [E14 Hm14].
  rewrite (bind_run _ _ _ _ _ E14).
  set (w14 := mkWorld (delete h' (heap w13)) (cout w13)) in *.
  change (building m9 (heap w14) b h'' []) in Hm14.
  destruct (release_around _ _ _ _ _ _ _ Hm14 Hh7) as [E15 Hm15].
  rewrite (bind_run _ _ _ _ _ E15).
  set (w15 := mkWorld (delete h (heap w14)) (cout w14)) in *.
  change (building m7 (heap w15) b h'' []) in Hm15.
  destruct (release_around _ _ _ _ _ _ _ Hm15 Hd) as [E16 Hm16].
  rewrite (bind_run _ _ _ _ _ E16).
  set (w16 := mkWorld (delete d (heap w15)) (cout w15)) in *.
  change (building (heap w) (heap w16) b h'' []) in Hm16.
  rewrite bind_assoc_inv.
  rewrite (bind_run _ _ _ _ _ (destroy_building _ _ _ _ _ Hm16)).
  unfold mret, M_ret. do 3 f_equal.
  simpl. unfold c13; simpl. unfold c10; simpl. rewrite Ec5. unfold c4.
  rewrite !append_assoc. reflexivity.
Qed.
End MainClaims.

(** ** The driver's worlds, again *)

Lemma show_writes_parts_witness :
  House.show 2%positive minimal_world =
    Some ((), mkWorld (heap minimal_world)
                (cout minimal_world +:+ "[Builder] House with: " +:+
                 shown ["Walls"; "Doors"] +:+ nl)).
Proof.
  apply (show_writes_parts minimal_world 2%positive ["Walls"; "Doors"]).
  vm_compute. reflexivity.
Defined.

Lemma built_house_shows_steps_witness :
  ∃ w', (r ← @build fresh_allocator 1%positive [Doors; Walls];
         House.show r) builder_world = Some ((), w') ∧
        cout w' = cout builder_world +:+ "[Builder] House with: " +:+
                  shown (step_name <$> [Doors; Walls]) +:+ nl.
Proof.
  apply (@built_house_shows_steps fresh_allocator 1%positive builder_world
           [Doors; Walls]).
  apply (@reset_declared fresh_allocator _ _ empty_world).
  vm_compute. reflexivity.
Defined.

Lemma destructor_keeps_returned_house_witness :
  ∃ w', (r ← @SimpleHouseBuilder.getResult fresh_allocator 1%positive;
         SimpleHouseBuilder.destroy 1%positive;; release 1%positive;;
         mret r) (with_parts builder_world 2%positive ["Walls"])
          = Some (2%positive, w') ∧
        heap w' = delete 1%positive
                    (heap (with_parts builder_world 2%positive ["Walls"])) ∧
        heap w' !! 2%positive = Some (OHouse ["Walls"]).
Proof.
  apply (@destructor_keeps_returned_house fresh_allocator
           (with_parts builder_world 2%positive ["Walls"]) 1%positive
           2%positive ["Walls"]).
  split; vm_compute; reflexivity.
Defined.

Lemma builder_reuse_witness :
  ∃ rs w',
    @build_all fresh_allocator 1%positive [[Walls; Doors]; []; [Windows]]
      builder_world = Some (rs, w') ∧
    NoDup rs ∧
    Forall2 (λ r l, heap w' !! r = Some (OHouse (step_name <$> l)))
            rs [[Walls; Doors]; []; [Windows]] ∧
    (∀ p o, p ≠ 1%positive → p ≠ 2%positive →
            heap builder_world !! p = Some o → heap w' !! p = Some o).
Proof.
  apply (@builder_reuse fresh_allocator 1%positive
           [[Walls; Doors]; []; [Windows]] builder_world 2%positive).
  split; vm_compute; reflexivity.
Defined.

Lemma director_calls_accumulate_witness :
  do_plans 3%positive [Minimal; Full] site_world =
    Some ((), with_parts site_world 2%positive
                ([] ++ concat (plan_parts <$> [Minimal; Full]))).
Proof.
  apply (director_calls_accumulate [Minimal; Full] site_world 3%positive
           1%positive 2%positive []).
  - vm_compute. reflexivity.
  - split; vm_compute; reflexivity.
Defined.

Lemma setBuilder_retargets_witness :
  ∃ w', (Director.setBuilder 3%positive 5%positive;;
         do_plan 3%positive Full) second_builder_world = Some ((), w') ∧
        attached w' 3%positive 5%positive ∧
        holds w' 5%positive 6%positive (["Doors"] ++ plan_parts Full) ∧
        ∀ q, q ≠ 3%positive → q ≠ 6%positive →
             heap w' !! q = heap second_builder_world !! q.
Proof.
  apply (setBuilder_retargets second_builder_world 3%positive
           (Some 1%positive) 5%positive 6%positive ["Doors"] Full).
  - vm_compute. reflexivity.
  - split; vm_compute; reflexivity.
Defined.
